(** * Dead-reckoning estimator and georeferencing of the Controls-Project

    Shallow embedding of the sensor-fusion callbacks of
    [src/components/DRModule.jsx] ([handleDeviceOrientation],
    [handleDeviceMotion], [clearPath]) and of the two coordinate effects of
    [src/components/PathVisualizer.jsx] (DR path projection and the
    ground-truth trace).

    JavaScript numbers are modelled as real numbers (rounding is not
    modelled).  The React state and its [useRef] mirrors are collapsed into
    one state record per handler: the handlers read and write the refs, and
    the effects copy every [setX] into the matching ref before the next
    event.  Display-only state ([accelerometerData], [gyroscopeData]) is not
    modelled. *)

From Stdlib Require Import String.
From Stdlib Require Import Reals Lra Lia List.
Import ListNotations.

Open Scope R_scope.

(** ** JavaScript values read from sensor events *)

(** The fields of a sensor event are JavaScript values: a number, [NaN],
    [null] or [undefined]. *)
Inductive jsval : Type :=
| JUndef
| JNull
| JNaN
| JNum (r : R).

(** [v || 0] for a number-valued field: [undefined], [null], [NaN] and the
    zeros are falsy and give [0]; any other number is kept (a zero gives
    [0] in both cases). *)
Definition or0 (v : jsval) : R :=
  match v with
  | JNum r => r
  | _ => 0
  end.

(** [a ?? b]: [b] when [a] is [null] or [undefined]. *)
Definition nullish (a b : jsval) : jsval :=
  match a with
  | JUndef | JNull => b
  | _ => a
  end.

(** [typeof v === "number" && !Number.isNaN(v)] *)
Definition as_number (v : jsval) : option R :=
  match v with
  | JNum r => Some r
  | _ => None
  end.

(** ** JavaScript math *)

(** Truncation toward zero, the integer part used by the [%] operator. *)
Definition trunc (r : R) : R :=
  if Rle_dec 0 r then IZR (Int_part r) else - IZR (Int_part (- r)).

(** JavaScript remainder [a % b] (the sign follows the dividend). *)
Definition js_mod (a b : R) : R := a - b * trunc (a / b).

(** [Math.atan2(y, x)] (signed zeros not modelled). *)
Definition atan2 (y x : R) : R :=
  if Rlt_dec 0 x then atan (y / x)
  else if Rlt_dec x 0 then
    (if Rle_dec 0 y then atan (y / x) + PI else atan (y / x) - PI)
  else if Rlt_dec 0 y then PI / 2
  else if Rlt_dec y 0 then - (PI / 2)
  else 0.

(** [Math.hypot(a, b)] *)
Definition hypot (a b : R) : R := sqrt (a * a + b * b).

(** ** Heading estimator: [handleDeviceOrientation] *)

Record OrientationEvent := {
  ev_alpha : jsval;
  ev_beta : jsval;
  ev_gamma : jsval;
  webkitCompassHeading : jsval   (** [JUndef] when the field is absent *)
}.

(** [compassFilterRef.current.lastValue], the React [heading] state (and its
    mirror [headingRef]) and [isCalibrating].  The 2 s timer that clears
    [isCalibrating] is not modelled. *)
Record HeadingState := {
  lastValue : option R;
  heading : R;
  isCalibrating : bool
}.

(** [compassFilterRef.current.alpha] *)
Definition filterAlpha : R := 0.2.

Definition variationThreshold : R := 20.

(** Tilt-compensated heading of lines 73-88. *)
Definition tilt_compensate (alpha beta gamma : R) : R :=
  let betaRad := beta * (PI / 180) in
  let gammaRad := gamma * (PI / 180) in
  let cosB := cos betaRad in
  let sinB := sin betaRad in
  let cosG := cos gammaRad in
  let sinG := sin gammaRad in
  let h :=
    atan2 (sinG * cosB * cos (alpha * PI / 180) + sinB * sin (alpha * PI / 180))
          (cosG * cos (alpha * PI / 180)) * (180 / PI) in
  js_mod (h + 360) 360.

(** Tilt compensation: only when [|beta| > 5] or [|gamma| > 5]. *)
Definition compensate (alpha beta gamma : R) : R :=
  if Rlt_dec 5 (Rabs beta) then tilt_compensate alpha beta gamma
  else if Rlt_dec 5 (Rabs gamma) then tilt_compensate alpha beta gamma
  else alpha.

(** Low-pass filter: the new [lastValue], which is also the heading carried
    on to the platform step. *)
Definition low_pass (last : option R) (h : R) : R :=
  match last with
  | None => h
  | Some prev => filterAlpha * h + (1 - filterAlpha) * prev
  end.

(** iOS vs Android (lines 104-109).  [screen] is
    [window.screen.orientation.angle || 0] when [window.screen] and
    [window.screen.orientation] exist, [None] otherwise. *)
Definition platform_normalize (screen : option R) (ev : OrientationEvent) (h : R) : R :=
  match webkitCompassHeading ev with
  | JUndef =>
      match screen with
      | Some screenOrientation => js_mod (h + screenOrientation) 360
      | None => h
      end
  | _ => 360 - h
  end.

Definition handleDeviceOrientation (screen : option R) (hs : HeadingState)
    (ev : OrientationEvent) : HeadingState :=
  let alpha := nullish (ev_alpha ev) (webkitCompassHeading ev) in
  match as_number alpha, as_number (ev_beta ev), as_number (ev_gamma ev) with
  | Some a, Some b, Some g =>
      let filtered := low_pass (lastValue hs) (compensate a b g) in
      let compensatedHeading := platform_normalize screen ev filtered in
      let previousHeading := heading hs in
      {| lastValue := Some filtered;
         heading := compensatedHeading;
         isCalibrating :=
           if Rlt_dec variationThreshold (Rabs (compensatedHeading - previousHeading))
           then true else isCalibrating hs |}
  | _, _, _ => hs
  end.

(** ** Motion integrator: [handleDeviceMotion] *)

Record Vec2 := { vx : R; vy : R }.

Definition zero2 : Vec2 := {| vx := 0; vy := 0 |}.

(** [velRef], [posRef], [pathRef], [accelBiasRef], [stationaryCountRef] and
    [lastTimestampRef]. *)
Record MotionState := {
  velocity : Vec2;
  position : Vec2;
  path : list Vec2;
  accelBias : Vec2;
  stationaryCount : nat;
  lastTimestamp : option R
}.

(** [event.acceleration] with its [x] and [y] fields ([z] is unused). *)
Record Acceleration := { acc_x : jsval; acc_y : jsval }.

Record MotionEvent := {
  acceleration : option Acceleration;   (** [None]: [!acc] *)
  timeStamp : option R                  (** [None]: not a number *)
}.

(** A motion event as the handler sees it: the event, the value of
    [performance.now()] at that moment, and [headingRef.current], the most
    recently committed heading. *)
Record MotionInput := {
  mi_event : MotionEvent;
  mi_clock : R;
  mi_heading : R
}.

Definition stationaryThreshold : R := 0.12.
Definition stationarySamplesRequired : nat := 6.
Definition deadzone : R := 0.05.
Definition damping : R := 1.0.

Definition sample_now (i : MotionInput) : R :=
  match timeStamp (mi_event i) with
  | Some t => t
  | None => mi_clock i
  end.

(** [(now - lastTimestampRef.current) / 1000.0] *)
Definition delta_time (last now : R) : R := (now - last) / 1000.

(** [stationaryCountRef] after the stationary detection of a sample. *)
Definition next_count (count : nat) (axRaw ayRaw : R) : nat :=
  if Rlt_dec (hypot axRaw ayRaw) stationaryThreshold then S count else 0%nat.

(** Exponential smoothing of the bias during stationary periods. *)
Definition learn_bias (bias : Vec2) (axRaw ayRaw : R) : Vec2 :=
  {| vx := vx bias * 0.8 + axRaw * 0.2; vy := vy bias * 0.8 + ayRaw * 0.2 |}.

(** [Math.abs(u) > deadzone ? u : 0] *)
Definition apply_deadzone (u : R) : R :=
  if Rlt_dec deadzone (Rabs u) then u else 0.

(** Rotation of the device-frame acceleration into the world frame. *)
Definition world_frame (headingDeg ax ay : R) : Vec2 :=
  let headingRad := headingDeg * (PI / 180) in
  {| vx := ax * cos headingRad + ay * sin headingRad;
     vy := - ax * sin headingRad + ay * cos headingRad |}.

(** [(v + a * dt) * exp(-damping * dt)] per axis. *)
Definition damped_velocity (v a : Vec2) (deltaTime : R) : Vec2 :=
  {| vx := (vx v + vx a * deltaTime) * exp (- damping * deltaTime);
     vy := (vy v + vy a * deltaTime) * exp (- damping * deltaTime) |}.

(** [p + v * dt] per axis (semi-implicit Euler). *)
Definition integrate_position (p v : Vec2) (deltaTime : R) : Vec2 :=
  {| vx := vx p + vx v * deltaTime; vy := vy p + vy v * deltaTime |}.

Definition handleDeviceMotion (st : MotionState) (i : MotionInput) : MotionState :=
  match acceleration (mi_event i) with
  | None => st
  | Some acc =>
      let now := sample_now i in
      match lastTimestamp st with
      | None =>
          {| velocity := velocity st; position := position st; path := path st;
             accelBias := accelBias st; stationaryCount := stationaryCount st;
             lastTimestamp := Some now |}
      | Some last =>
          let deltaTime := delta_time last now in
          if Rle_dec deltaTime 0 then st
          else if Rlt_dec deltaTime 0.001 then st
          else
            let axRaw := or0 (acc_x acc) in
            let ayRaw := or0 (acc_y acc) in
            let count := next_count (stationaryCount st) axRaw ayRaw in
            if Nat.leb stationarySamplesRequired count then
              {| velocity := zero2; position := position st; path := path st;
                 accelBias := learn_bias (accelBias st) axRaw ayRaw;
                 stationaryCount := count; lastTimestamp := Some now |}
            else
              let ax := apply_deadzone (axRaw - vx (accelBias st)) in
              let ay := apply_deadzone (ayRaw - vy (accelBias st)) in
              let w := world_frame (mi_heading i) ax ay in
              let newVel := damped_velocity (velocity st) w deltaTime in
              let newPos := integrate_position (position st) newVel deltaTime in
              {| velocity := newVel; position := newPos;
                 path := path st ++ [newPos];
                 accelBias := accelBias st; stationaryCount := count;
                 lastTimestamp := Some now |}
      end
  end.

(** A stream of motion events, handled one after another. *)
Fixpoint run (st : MotionState) (ins : list MotionInput) : MotionState :=
  match ins with
  | [] => st
  | i :: rest => run (handleDeviceMotion st i) rest
  end.

(** [clearPath] *)
Definition clearPath (st : MotionState) : MotionState :=
  {| velocity := zero2; position := zero2; path := [zero2];
     accelBias := accelBias st; stationaryCount := stationaryCount st;
     lastTimestamp := None |}.

(** ** Georeferencing: [PathVisualizer] *)

Record GeoFix := {
  latitude : R;
  longitude : R;
  accuracy : R;
  fix_timestamp : R
}.

Definition metersPerLatDegree : R := 111320.

(** The effect of lines 51-80: [drPathCoords] from [path] and
    [gpsLocation]. *)
Definition projectPath (gpsLocation : option GeoFix) (p : list Vec2) : list (R * R) :=
  match gpsLocation with
  | None => []
  | Some g =>
      if Nat.ltb (length p) 2 then []
      else
        let originLat := latitude g in
        let originLon := longitude g in
        let metersPerLonDegree := 111320 * cos (originLat * PI / 180) in
        map (fun q => (originLat + vy q / metersPerLatDegree,
                       originLon + vx q / metersPerLonDegree)) p
  end.

(** Flat-Earth distance of lines 91-99, with the longitude scale taken at
    the stored [point]'s latitude. *)
Definition flat_distance (point newPoint : R * R) : R :=
  sqrt ((((fst point - fst newPoint) * 111320) ^ 2) +
        (((snd point - snd newPoint) * 111320 * cos (fst point * PI / 180)) ^ 2)).

Definition is_close (point newPoint : R * R) : bool :=
  if Rlt_dec (flat_distance point newPoint) 0.5 then true else false.

(** The effect of lines 83-109: [gpsPathCoords] after a new [gpsLocation]. *)
Definition ingestGroundTruth (prev : list (R * R)) (gpsLocation : option GeoFix)
    : list (R * R) :=
  match gpsLocation with
  | None => prev
  | Some g =>
      let newPoint := (latitude g, longitude g) in
      if existsb (fun point => is_close point newPoint) prev then prev
      else prev ++ [newPoint]
  end.

(** ** Runs of samples *)

(** The handler gets past its guards on [i] in state [st]: an acceleration
    object, a timestamp baseline, and a delta of at least 1 ms. *)
Definition accepted (st : MotionState) (i : MotionInput) : Prop :=
  exists acc last,
    acceleration (mi_event i) = Some acc /\ lastTimestamp st = Some last /\
    0 < delta_time last (sample_now i) /\ 0.001 <= delta_time last (sample_now i).

(** The raw 2D acceleration of [i] is below the stationary threshold. *)
Definition low_motion (i : MotionInput) : Prop :=
  exists acc,
    acceleration (mi_event i) = Some acc /\
    hypot (or0 (acc_x acc)) (or0 (acc_y acc)) < stationaryThreshold.

(** Consecutive accepted samples, all below the stationary threshold. *)
Fixpoint still_run (st : MotionState) (ins : list MotionInput) : Prop :=
  match ins with
  | [] => True
  | i :: rest => accepted st i /\ low_motion i /\ still_run (handleDeviceMotion st i) rest
  end.

(** ** Streams of orientation samples and of GPS fixes *)

Fixpoint run_orientation (screen : option R) (hs : HeadingState)
    (evs : list OrientationEvent) : HeadingState :=
  match evs with
  | [] => hs
  | ev :: rest => run_orientation screen (handleDeviceOrientation screen hs ev) rest
  end.

(** Successive [gpsLocation] values fed to the ground-truth effect. *)
Fixpoint ingest_all (prev : list (R * R)) (fixes : list (option GeoFix)) : list (R * R) :=
  match fixes with
  | [] => prev
  | f :: rest => ingest_all (ingestGroundTruth prev f) rest
  end.

(** Every stored point is at least 0.5 m (flat-Earth metric, scaled at the
    earlier point's latitude) from every point stored after it. *)
Fixpoint spaced (l : list (R * R)) : Prop :=
  match l with
  | [] => True
  | p :: rest => Forall (fun q => 0.5 <= flat_distance p q) rest /\ spaced rest
  end.

(** ** Session lifecycle: [startMonitoring], [stopMonitoring] *)

(** The outcome of [X.requestPermission]: absent ([typeof ... !== "function"],
    treated as granted), a resolved answer, or a rejection with a message. *)
Inductive Permission : Type :=
| NoRequestApi
| Answer (s : string)
| Rejects (message : string).

(** [motionGranted] / [orientationGranted] for a permission that did not
    throw. *)
Definition granted (p : Permission) : bool :=
  match p with
  | NoRequestApi => true
  | Answer s => if string_dec s "granted"%string then true else false
  | Rejects _ => false
  end.

Definition throws (p : Permission) : option string :=
  match p with
  | Rejects m => Some m
  | _ => None
  end.

(** The component state the lifecycle touches: the motion and heading
    state, whether the two window listeners are attached, [isMonitoring]
    and [error]. *)
Record Session := {
  motion : MotionState;
  orientation : HeadingState;
  listening : bool;
  isMonitoring : bool;
  error : option string
}.

Definition set_baseline (st : MotionState) (t : option R) : MotionState :=
  {| velocity := velocity st; position := position st; path := path st;
     accelBias := accelBias st; stationaryCount := stationaryCount st;
     lastTimestamp := t |}.

(** [startMonitoring] run to completion: the motion permission is asked
    first; when it rejects, the orientation permission is not asked. *)
Definition startMonitoring (pm po : Permission) (s : Session) : Session :=
  let m := set_baseline (motion s) None in
  let fail msg :=
    {| motion := m; orientation := orientation s; listening := listening s;
       isMonitoring := isMonitoring s;
       error := Some (append "Error starting sensor monitoring: "%string msg) |} in
  match throws pm with
  | Some msg => fail msg
  | None =>
      match throws po with
      | Some msg => fail msg
      | None =>
          if (granted pm && granted po)%bool then
            {| motion := m; orientation := orientation s; listening := true;
               isMonitoring := true; error := None |}
          else
            {| motion := m; orientation := orientation s; listening := listening s;
               isMonitoring := isMonitoring s;
               error := Some "Permission to access one or more sensors was denied."%string |}
      end
  end.

Definition stopMonitoring (s : Session) : Session :=
  {| motion := set_baseline (motion s) None; orientation := orientation s;
     listening := false; isMonitoring := false; error := error s |}.

(** The Reset Path button. *)
Definition resetSession (s : Session) : Session :=
  {| motion := clearPath (motion s); orientation := orientation s;
     listening := listening s; isMonitoring := isMonitoring s; error := error s |}.

(** Delivery of a [devicemotion] event: the handler runs only while the
    listener is attached, with [headingRef.current] as the committed
    heading. *)
Definition dispatch_motion (s : Session) (ev : MotionEvent) (clock : R) : Session :=
  if listening s then
    {| motion := handleDeviceMotion (motion s)
                   {| mi_event := ev; mi_clock := clock; mi_heading := heading (orientation s) |};
       orientation := orientation s; listening := listening s;
       isMonitoring := isMonitoring s; error := error s |}
  else s.

(** ** Concrete inputs used by the examples below *)

Definition heading0 : HeadingState :=
  {| lastValue := None; heading := 0; isCalibrating := false |}.

(** A stream that has seen one sample at time 0 and has not moved. *)
Definition motion0 : MotionState :=
  {| velocity := zero2; position := zero2; path := [zero2];
     accelBias := zero2; stationaryCount := 0; lastTimestamp := Some 0 |}.

(** The state [motion0] after five stationary samples. *)
Definition motion5 : MotionState :=
  {| velocity := zero2; position := zero2; path := [zero2];
     accelBias := zero2; stationaryCount := 5; lastTimestamp := Some 0 |}.

(** A monitoring session in the state [motion0]. *)
Definition session0 : Session :=
  {| motion := motion0; orientation := heading0; listening := true;
     isMonitoring := true; error := None |}.

(** A motion input carrying the acceleration [acc] at [event.timeStamp = t]. *)
Definition motion_input (acc : Acceleration) (t h : R) : MotionInput :=
  {| mi_event := {| acceleration := Some acc; timeStamp := Some t |};
     mi_clock := t; mi_heading := h |}.

(** The same input with another acceleration object. *)
Definition with_acc (i : MotionInput) (acc : Acceleration) : MotionInput :=
  {| mi_event := {| acceleration := Some acc; timeStamp := timeStamp (mi_event i) |};
     mi_clock := mi_clock i; mi_heading := mi_heading i |}.

Definition fix_at (lat lon : R) : GeoFix :=
  {| latitude := lat; longitude := lon; accuracy := 5; fix_timestamp := 0 |}.

Definition no_accel : Acceleration := {| acc_x := JNum 0; acc_y := JNum 0 |}.

(** [n] zero-acceleration samples, 100 ms apart, starting at time [t]. *)
Fixpoint still_inputs (t : R) (n : nat) : list MotionInput :=
  match n with
  | O => []
  | S n' => motion_input no_accel t 0 :: still_inputs (t + 100) n'
  end.

(** ** Sanity checks on small inputs *)

Example or0_missing : or0 JUndef = 0 /\ or0 JNaN = 0 /\ or0 (JNum 2) = 2.
Proof. repeat split. Qed.

Example nullish_webkit : nullish JNull (JNum 7) = JNum 7.
Proof. reflexivity. Qed.

Example trunc_pos : trunc (3 / 2) = 1.
Proof.
  unfold trunc. destruct (Rle_dec 0 (3 / 2)) as [_|n]; [|lra].
  rewrite <- (Int_part_spec (3 / 2) 1); [reflexivity|].
  simpl. lra.
Qed.

(** ** Shared lemmas *)

Lemma Int_part_bounds (r : R) : IZR (Int_part r) <= r < IZR (Int_part r) + 1.
Proof. destruct (base_Int_part r). lra. Qed.

(** For a non-negative dividend and a positive divisor, [%] lands in
    [[0, b)]. *)
Lemma js_mod_range (a b : R) : 0 <= a -> 0 < b -> 0 <= js_mod a b < b.
Proof.
  intros Ha Hb. unfold js_mod, trunc.
  assert (Hq : 0 <= a / b) by (apply Rmult_le_pos; [lra | left; apply Rinv_0_lt_compat; lra]).
  destruct (Rle_dec 0 (a / b)) as [_|n]; [|lra].
  destruct (Int_part_bounds (a / b)) as [H1 H2].
  set (k := IZR (Int_part (a / b))) in *.
  assert (Ea : a = b * (a / b)) by (field; lra).
  split.
  - assert (b * k <= b * (a / b)) by (apply Rmult_le_compat_l; lra). lra.
  - assert (b * (a / b) < b * (k + 1)) by (apply Rmult_lt_compat_l; lra). lra.
Qed.

(** [Math.atan2] returns an angle in [[-pi, pi]]. *)
Lemma atan2_range (y x : R) : - PI <= atan2 y x <= PI.
Proof.
  pose proof PI_RGT_0 as Hpi.
  unfold atan2.
  destruct (Rlt_dec 0 x) as [Hx|Hx].
  - destruct (atan_bound (y / x)). lra.
  - destruct (Rlt_dec x 0) as [Hx'|Hx'].
    + destruct (atan_bound (y / x)) as [B1 B2].
      destruct (Rle_dec 0 y) as [Hy|Hy].
      * assert (y / x <= 0).
        { unfold Rdiv. assert (/ x < 0) by (apply Rinv_lt_0_compat; lra). nra. }
        assert (atan (y / x) <= 0).
        { destruct (Req_dec (y / x) 0) as [E|E].
          - rewrite E, atan_0. lra.
          - rewrite <- atan_0. left. apply atan_increasing. lra. }
        lra.
      * assert (0 < y / x).
        { unfold Rdiv. assert (/ x < 0) by (apply Rinv_lt_0_compat; lra). nra. }
        assert (0 < atan (y / x)) by (rewrite <- atan_0; apply atan_increasing; lra).
        lra.
    + destruct (Rlt_dec 0 y); [lra|].
      destruct (Rlt_dec y 0); lra.
Qed.

(** The tilt-compensated heading is always in [[0, 360)]. *)
Lemma tilt_compensate_range (a b g : R) :
  0 <= tilt_compensate a b g < 360.
Proof.
  unfold tilt_compensate. apply js_mod_range; [|lra].
  pose proof PI_RGT_0 as Hpi.
  match goal with |- 0 <= atan2 ?y ?x * _ + _ => set (t := atan2 y x); destruct (atan2_range y x) as [L _] end.
  fold t in L.
  assert (- PI * (180 / PI) = -180) by (field; lra).
  assert (- PI * (180 / PI) <= t * (180 / PI)).
  { apply Rmult_le_compat_r; [|exact L]. left. unfold Rdiv. apply Rmult_lt_0_compat; [lra|].
    apply Rinv_0_lt_compat; lra. }
  lra.
Qed.

(** Without tilt compensation the raw azimuth is passed through; with it
    the result is in [[0, 360)]. *)
Lemma compensate_range (a b g : R) :
  0 <= a < 360 -> 0 <= compensate a b g < 360.
Proof.
  intros Ha. unfold compensate.
  destruct (Rlt_dec 5 (Rabs b)); [apply tilt_compensate_range|].
  destruct (Rlt_dec 5 (Rabs g)); [apply tilt_compensate_range|exact Ha].
Qed.

(** The low-pass filter is a convex combination, so it keeps [[0, 360)]. *)
Lemma low_pass_range (last : option R) (h : R) :
  0 <= h < 360 ->
  (forall prev, last = Some prev -> 0 <= prev < 360) ->
  0 <= low_pass last h < 360.
Proof.
  intros Hh Hl. destruct last as [prev|]; simpl; [|exact Hh].
  specialize (Hl prev eq_refl). unfold filterAlpha. lra.
Qed.

(** ** C1: range of the stored heading *)

(** Claim C1 (amended).  For an accepted orientation sample whose azimuth is
    in the sensor range [[0, 360)], with a filter state in [[0, 360)] (or
    none) and a non-negative screen angle: the new filter value is in
    [[0, 360)], and the stored heading is in [[0, 360)] on the
    screen-rotation path and on the path with no platform hint, and on the
    compass-heading (iOS) path whenever the filtered value is not 0. *)
Theorem heading_in_range_for_sensor_azimuth (screen : option R) (hs : HeadingState)
    (ev : OrientationEvent) (a b g : R) :
  as_number (nullish (ev_alpha ev) (webkitCompassHeading ev)) = Some a ->
  as_number (ev_beta ev) = Some b ->
  as_number (ev_gamma ev) = Some g ->
  0 <= a < 360 ->
  (forall prev, lastValue hs = Some prev -> 0 <= prev < 360) ->
  (forall ang, screen = Some ang -> 0 <= ang) ->
  exists filtered,
    lastValue (handleDeviceOrientation screen hs ev) = Some filtered /\
    0 <= filtered < 360 /\
    (webkitCompassHeading ev = JUndef \/ filtered <> 0 ->
     0 <= heading (handleDeviceOrientation screen hs ev) < 360).
Proof.
  intros Ea Eb Eg Ha Hprev Hscreen.
  unfold handleDeviceOrientation. rewrite Ea, Eb, Eg. cbn [lastValue heading].
  pose proof (low_pass_range (lastValue hs) (compensate a b g)
                (compensate_range a b g Ha) Hprev) as Hf.
  set (f := low_pass (lastValue hs) (compensate a b g)) in *.
  exists f. split; [reflexivity|]. split; [exact Hf|].
  intros Hcase. unfold platform_normalize.
  destruct (webkitCompassHeading ev) eqn:Ew.
  - destruct screen as [ang|]; [|exact Hf].
    apply js_mod_range; [|lra].
    specialize (Hscreen ang eq_refl). lra.
  - destruct Hcase as [D|D]; [discriminate|lra].
  - destruct Hcase as [D|D]; [discriminate|lra].
  - destruct Hcase as [D|D]; [discriminate|lra].
Qed.

Lemma heading_in_range_for_sensor_azimuth_witness :
  exists filtered,
    lastValue (handleDeviceOrientation (Some 90) heading0
      {| ev_alpha := JNum 10; ev_beta := JNum 0; ev_gamma := JNum 0;
         webkitCompassHeading := JUndef |}) = Some filtered /\
    0 <= filtered < 360 /\
    (JUndef = JUndef \/ filtered <> 0 ->
     0 <= heading (handleDeviceOrientation (Some 90) heading0
      {| ev_alpha := JNum 10; ev_beta := JNum 0; ev_gamma := JNum 0;
         webkitCompassHeading := JUndef |}) < 360).
Proof.
  apply (heading_in_range_for_sensor_azimuth (Some 90) heading0
    {| ev_alpha := JNum 10; ev_beta := JNum 0; ev_gamma := JNum 0;
       webkitCompassHeading := JUndef |} 10 0 0);
    simpl; try reflexivity; try lra.
  - intros prev H; discriminate H.
  - intros ang H; injection H as <-; lra.
Defined.

(** No tilt: the raw azimuth is the compensated heading. *)
Lemma compensate_level (a : R) : compensate a 0 0 = a.
Proof.
  unfold compensate. rewrite Rabs_R0.
  destruct (Rlt_dec 5 0); [lra|]. destruct (Rlt_dec 5 0); [lra|]. reflexivity.
Qed.

(** Claim C1 fails as stated: a level sample with azimuth 400 and no
    platform hint stores 400, and an iOS sample (no [alpha], compass
    heading 0) stores [360 - 0 = 360]. *)
Lemma heading_out_of_range_examples :
  heading (handleDeviceOrientation None heading0
    {| ev_alpha := JNum 400; ev_beta := JNum 0; ev_gamma := JNum 0;
       webkitCompassHeading := JUndef |}) = 400 /\
  heading (handleDeviceOrientation (Some 0) heading0
    {| ev_alpha := JNull; ev_beta := JNum 0; ev_gamma := JNum 0;
       webkitCompassHeading := JNum 0 |}) = 360 /\
  ~ (0 <= 400 < 360) /\ ~ (0 <= 360 < 360).
Proof.
  cbn -[compensate]. rewrite !compensate_level. repeat split; lra.
Qed.

(** ** Motion integrator: the three outcomes of an accepted sample *)

Lemma motion_rejected_eq (st : MotionState) (i : MotionInput) (acc : Acceleration) (last : R) :
  acceleration (mi_event i) = Some acc ->
  lastTimestamp st = Some last ->
  (delta_time last (sample_now i) <= 0 \/ delta_time last (sample_now i) < 0.001) ->
  handleDeviceMotion st i = st.
Proof.
  intros Ea El Hdt. unfold handleDeviceMotion. rewrite Ea, El.
  destruct (Rle_dec (delta_time last (sample_now i)) 0); [reflexivity|].
  destruct (Rlt_dec (delta_time last (sample_now i)) 0.001); [reflexivity|].
  lra.
Qed.

Lemma motion_stationary_eq (st : MotionState) (i : MotionInput) (acc : Acceleration) (last : R) :
  acceleration (mi_event i) = Some acc ->
  lastTimestamp st = Some last ->
  0 < delta_time last (sample_now i) ->
  0.001 <= delta_time last (sample_now i) ->
  (stationarySamplesRequired <=
     next_count (stationaryCount st) (or0 (acc_x acc)) (or0 (acc_y acc)))%nat ->
  handleDeviceMotion st i =
    {| velocity := zero2; position := position st; path := path st;
       accelBias := learn_bias (accelBias st) (or0 (acc_x acc)) (or0 (acc_y acc));
       stationaryCount := next_count (stationaryCount st) (or0 (acc_x acc)) (or0 (acc_y acc));
       lastTimestamp := Some (sample_now i) |}.
Proof.
  intros Ea El H1 H2 Hc. unfold handleDeviceMotion. rewrite Ea, El.
  destruct (Rle_dec (delta_time last (sample_now i)) 0); [lra|].
  destruct (Rlt_dec (delta_time last (sample_now i)) 0.001); [lra|].
  apply Nat.leb_le in Hc. rewrite Hc. reflexivity.
Qed.

Lemma motion_integrate_eq (st : MotionState) (i : MotionInput) (acc : Acceleration) (last : R) :
  acceleration (mi_event i) = Some acc ->
  lastTimestamp st = Some last ->
  0 < delta_time last (sample_now i) ->
  0.001 <= delta_time last (sample_now i) ->
  (next_count (stationaryCount st) (or0 (acc_x acc)) (or0 (acc_y acc))
     < stationarySamplesRequired)%nat ->
  handleDeviceMotion st i =
    let dt := delta_time last (sample_now i) in
    let w := world_frame (mi_heading i)
               (apply_deadzone (or0 (acc_x acc) - vx (accelBias st)))
               (apply_deadzone (or0 (acc_y acc) - vy (accelBias st))) in
    let newVel := damped_velocity (velocity st) w dt in
    let newPos := integrate_position (position st) newVel dt in
    {| velocity := newVel; position := newPos; path := path st ++ [newPos];
       accelBias := accelBias st;
       stationaryCount := next_count (stationaryCount st) (or0 (acc_x acc)) (or0 (acc_y acc));
       lastTimestamp := Some (sample_now i) |}.
Proof.
  intros Ea El H1 H2 Hc. unfold handleDeviceMotion. rewrite Ea, El.
  destruct (Rle_dec (delta_time last (sample_now i)) 0); [lra|].
  destruct (Rlt_dec (delta_time last (sample_now i)) 0.001); [lra|].
  apply Nat.leb_gt in Hc. rewrite Hc. reflexivity.
Qed.

Lemma delta_time_motion0 (acc : Acceleration) (t h : R) :
  delta_time 0 (sample_now (motion_input acc t h)) = t / 1000.
Proof. unfold delta_time, sample_now. simpl. field. Qed.

Lemma hypot_0_0 : hypot 0 0 = 0.
Proof. unfold hypot. rewrite Rmult_0_l, Rplus_0_l. apply sqrt_0. Qed.

Lemma apply_deadzone_0 : apply_deadzone 0 = 0.
Proof. unfold apply_deadzone. destruct (Rlt_dec deadzone (Rabs 0)); reflexivity. Qed.

(** ** C3: rejected time deltas *)

(** Claim C3 (amended).  A motion sample whose elapsed time since the
    stored baseline is not strictly positive or below 1 ms leaves the whole
    motion state unchanged: velocity, position, path, bias, stationary count
    and the timestamp baseline itself (which is not advanced). *)
Theorem rejected_delta_keeps_state (st : MotionState) (i : MotionInput)
    (acc : Acceleration) (last : R) :
  acceleration (mi_event i) = Some acc ->
  lastTimestamp st = Some last ->
  (delta_time last (sample_now i) <= 0 \/ delta_time last (sample_now i) < 0.001) ->
  handleDeviceMotion st i = st /\ lastTimestamp (handleDeviceMotion st i) = Some last.
Proof.
  intros Ea El Hdt.
  rewrite (motion_rejected_eq st i acc last Ea El Hdt). auto.
Qed.

Lemma rejected_delta_keeps_state_witness :
  handleDeviceMotion motion0 (motion_input {| acc_x := JNum 1; acc_y := JNum 1 |} (-5) 0)
    = motion0 /\
  lastTimestamp (handleDeviceMotion motion0
    (motion_input {| acc_x := JNum 1; acc_y := JNum 1 |} (-5) 0)) = Some 0.
Proof.
  apply (rejected_delta_keeps_state motion0
           (motion_input {| acc_x := JNum 1; acc_y := JNum 1 |} (-5) 0)
           {| acc_x := JNum 1; acc_y := JNum 1 |} 0); try reflexivity.
  left. rewrite delta_time_motion0. lra.
Defined.

(** Claim C3 fails as stated: after a sample that goes back in time (from
    0 to -5 ms) the baseline stays at 0 and is not advanced to -5. *)
Lemma rejected_delta_does_not_advance_baseline :
  lastTimestamp (handleDeviceMotion motion0
    (motion_input {| acc_x := JNum 1; acc_y := JNum 1 |} (-5) 0)) <> Some (-5).
Proof.
  rewrite (motion_rejected_eq motion0 _ {| acc_x := JNum 1; acc_y := JNum 1 |} 0);
    try reflexivity.
  - simpl. intros H. injection H. lra.
  - left. rewrite delta_time_motion0. lra.
Qed.

(** ** C5: damping under zero acceleration *)

Lemma exp_neg_lt_1 (dt : R) : 0 < dt -> 0 < exp (- damping * dt) < 1.
Proof.
  intros H. split; [apply exp_pos|].
  rewrite <- exp_0. apply exp_increasing. unfold damping. lra.
Qed.

(** Claim C5 (amended).  On an accepted, integrated sample whose
    world-frame acceleration is zero, the new velocity is
    [v * exp(-1.0 * dt)], so its magnitude strictly decreases whenever the
    old velocity is not zero (a zero velocity stays zero). *)
Theorem zero_acceleration_velocity_decays (st : MotionState) (i : MotionInput)
    (acc : Acceleration) (last : R) :
  acceleration (mi_event i) = Some acc ->
  lastTimestamp st = Some last ->
  0 < delta_time last (sample_now i) ->
  0.001 <= delta_time last (sample_now i) ->
  (next_count (stationaryCount st) (or0 (acc_x acc)) (or0 (acc_y acc))
     < stationarySamplesRequired)%nat ->
  world_frame (mi_heading i)
    (apply_deadzone (or0 (acc_x acc) - vx (accelBias st)))
    (apply_deadzone (or0 (acc_y acc) - vy (accelBias st))) = zero2 ->
  velocity (handleDeviceMotion st i) =
    {| vx := vx (velocity st) * exp (- damping * delta_time last (sample_now i));
       vy := vy (velocity st) * exp (- damping * delta_time last (sample_now i)) |} /\
  (velocity st <> zero2 ->
   hypot (vx (velocity (handleDeviceMotion st i))) (vy (velocity (handleDeviceMotion st i)))
   < hypot (vx (velocity st)) (vy (velocity st))).
Proof.
  intros Ea El H1 H2 Hc Hw.
  rewrite (motion_integrate_eq st i acc last Ea El H1 H2 Hc). cbv zeta.
  rewrite Hw. unfold damped_velocity. cbn [velocity vx vy zero2].
  set (e := exp (- damping * delta_time last (sample_now i))).
  assert (He : 0 < e < 1) by (apply exp_neg_lt_1; exact H1).
  split.
  - f_equal; ring.
  - intros Hv. destruct (velocity st) as [x y]. cbn [vx vy].
    assert (Hpos : 0 < x * x + y * y).
    { destruct (Req_dec x 0) as [Ex|Ex]; destruct (Req_dec y 0) as [Ey|Ey].
      - subst. exfalso. apply Hv. reflexivity.
      - assert (0 < y * y) by (apply Rsqr_pos_lt; exact Ey). nra.
      - assert (0 < x * x) by (apply Rsqr_pos_lt; exact Ex). nra.
      - assert (0 < x * x) by (apply Rsqr_pos_lt; exact Ex). nra. }
    unfold hypot. apply sqrt_lt_1; [nra|nra|].
    replace ((x + 0 * delta_time last (sample_now i)) * e *
             ((x + 0 * delta_time last (sample_now i)) * e) +
             (y + 0 * delta_time last (sample_now i)) * e *
             ((y + 0 * delta_time last (sample_now i)) * e))
      with ((e * e) * (x * x + y * y)) by ring.
    assert (e * e < 1) by nra. nra.
Qed.

Lemma zero_acceleration_velocity_decays_witness :
  velocity (handleDeviceMotion
    {| velocity := {| vx := 1; vy := 0 |}; position := zero2; path := [zero2];
       accelBias := zero2; stationaryCount := 0; lastTimestamp := Some 0 |}
    (motion_input {| acc_x := JNum 0; acc_y := JNum 0 |} 100 0)) =
    {| vx := 1 * exp (- damping * delta_time 0 (sample_now
            (motion_input {| acc_x := JNum 0; acc_y := JNum 0 |} 100 0)));
       vy := 0 * exp (- damping * delta_time 0 (sample_now
            (motion_input {| acc_x := JNum 0; acc_y := JNum 0 |} 100 0))) |} /\
  ({| vx := 1; vy := 0 |} <> zero2 ->
   hypot (vx (velocity (handleDeviceMotion
     {| velocity := {| vx := 1; vy := 0 |}; position := zero2; path := [zero2];
        accelBias := zero2; stationaryCount := 0; lastTimestamp := Some 0 |}
     (motion_input {| acc_x := JNum 0; acc_y := JNum 0 |} 100 0))))
     (vy (velocity (handleDeviceMotion
     {| velocity := {| vx := 1; vy := 0 |}; position := zero2; path := [zero2];
        accelBias := zero2; stationaryCount := 0; lastTimestamp := Some 0 |}
     (motion_input {| acc_x := JNum 0; acc_y := JNum 0 |} 100 0))))
   < hypot 1 0).
Proof.
  apply (zero_acceleration_velocity_decays
    {| velocity := {| vx := 1; vy := 0 |}; position := zero2; path := [zero2];
       accelBias := zero2; stationaryCount := 0; lastTimestamp := Some 0 |}
    (motion_input {| acc_x := JNum 0; acc_y := JNum 0 |} 100 0)
    {| acc_x := JNum 0; acc_y := JNum 0 |} 0); try reflexivity;
    try (rewrite delta_time_motion0; lra).
  - unfold next_count. simpl. rewrite hypot_0_0.
    destruct (Rlt_dec 0 stationaryThreshold); unfold stationarySamplesRequired; simpl; lia.
  - simpl. rewrite Rminus_0_r, apply_deadzone_0. unfold world_frame, zero2.
    f_equal; ring.
Defined.

(** Claim C5 fails as stated: from a zero velocity, a zero-acceleration
    sample with [dt = 0.1 s] keeps the velocity at zero, so its magnitude
    does not strictly decrease. *)
Lemma zero_velocity_does_not_decrease :
  0 < delta_time 0 (sample_now (motion_input {| acc_x := JNum 0; acc_y := JNum 0 |} 100 0)) /\
  world_frame 0 (apply_deadzone (0 - 0)) (apply_deadzone (0 - 0)) = zero2 /\
  ~ (hypot (vx (velocity (handleDeviceMotion motion0
                 (motion_input {| acc_x := JNum 0; acc_y := JNum 0 |} 100 0))))
           (vy (velocity (handleDeviceMotion motion0
                 (motion_input {| acc_x := JNum 0; acc_y := JNum 0 |} 100 0))))
       < hypot (vx (velocity motion0)) (vy (velocity motion0))).
Proof.
  assert (Hw : world_frame 0 (apply_deadzone (0 - 0)) (apply_deadzone (0 - 0)) = zero2).
  { rewrite Rminus_0_r, apply_deadzone_0. unfold world_frame, zero2. f_equal; ring. }
  split; [rewrite delta_time_motion0; lra|]. split; [exact Hw|].
  rewrite (motion_integrate_eq motion0 _ {| acc_x := JNum 0; acc_y := JNum 0 |} 0);
    try reflexivity; try (rewrite delta_time_motion0; lra).
  - cbv zeta. simpl (mi_heading _). simpl (accelBias _). simpl (or0 _). simpl (vx zero2).
    simpl (vy zero2). rewrite Hw. simpl. intros H.
    replace ((0 + 0 * delta_time 0 (sample_now
               (motion_input {| acc_x := JNum 0; acc_y := JNum 0 |} 100 0))) *
             exp (- damping * delta_time 0 (sample_now
               (motion_input {| acc_x := JNum 0; acc_y := JNum 0 |} 100 0)))) with 0 in H
      by ring.
    lra.
  - unfold next_count. simpl. rewrite hypot_0_0.
    destruct (Rlt_dec 0 stationaryThreshold); unfold stationarySamplesRequired; simpl; lia.
Qed.

(** ** C9: deadzone *)

Lemma apply_deadzone_small (u : R) : Rabs u <= deadzone -> apply_deadzone u = 0.
Proof. intros H. unfold apply_deadzone. destruct (Rlt_dec deadzone (Rabs u)); [lra|reflexivity]. Qed.

Lemma apply_deadzone_large (u : R) : deadzone < Rabs u -> apply_deadzone u = u.
Proof. intros H. unfold apply_deadzone. destruct (Rlt_dec deadzone (Rabs u)); [reflexivity|lra]. Qed.

(** Claim C9.  On an accepted, non-stationary sample, a bias-corrected
    component with [|u| <= 0.05] is replaced by 0 before the rotation (the
    new velocity is the one computed with that component 0), and a
    component with [|u| > 0.05] is used unmodified. *)
Theorem deadzone_suppresses_small_components (st : MotionState) (i : MotionInput)
    (acc : Acceleration) (last : R) :
  acceleration (mi_event i) = Some acc ->
  lastTimestamp st = Some last ->
  0 < delta_time last (sample_now i) ->
  0.001 <= delta_time last (sample_now i) ->
  (next_count (stationaryCount st) (or0 (acc_x acc)) (or0 (acc_y acc))
     < stationarySamplesRequired)%nat ->
  velocity (handleDeviceMotion st i) =
    damped_velocity (velocity st)
      (world_frame (mi_heading i)
         (apply_deadzone (or0 (acc_x acc) - vx (accelBias st)))
         (apply_deadzone (or0 (acc_y acc) - vy (accelBias st))))
      (delta_time last (sample_now i)) /\
  (Rabs (or0 (acc_x acc) - vx (accelBias st)) <= 0.05 ->
   velocity (handleDeviceMotion st i) =
    damped_velocity (velocity st)
      (world_frame (mi_heading i) 0
         (apply_deadzone (or0 (acc_y acc) - vy (accelBias st))))
      (delta_time last (sample_now i))) /\
  (Rabs (or0 (acc_y acc) - vy (accelBias st)) <= 0.05 ->
   velocity (handleDeviceMotion st i) =
    damped_velocity (velocity st)
      (world_frame (mi_heading i)
         (apply_deadzone (or0 (acc_x acc) - vx (accelBias st))) 0)
      (delta_time last (sample_now i))) /\
  (forall u, Rabs u <= 0.05 -> apply_deadzone u = 0) /\
  (forall u, 0.05 < Rabs u -> apply_deadzone u = u).
Proof.
  intros Ea El H1 H2 Hc.
  rewrite (motion_integrate_eq st i acc last Ea El H1 H2 Hc). cbv zeta. cbn [velocity].
  repeat split.
  - intros Hx. rewrite (apply_deadzone_small _ Hx). reflexivity.
  - intros Hy. rewrite (apply_deadzone_small _ Hy). reflexivity.
  - exact apply_deadzone_small.
  - exact apply_deadzone_large.
Qed.

Lemma deadzone_suppresses_small_components_witness :
  let i := motion_input {| acc_x := JNum 0.01; acc_y := JNum 1 |} 100 0 in
  let acc := {| acc_x := JNum 0.01; acc_y := JNum 1 |} in
  velocity (handleDeviceMotion motion0 i) =
    damped_velocity zero2
      (world_frame 0 (apply_deadzone (0.01 - 0)) (apply_deadzone (1 - 0)))
      (delta_time 0 (sample_now i)) /\
  (Rabs (0.01 - 0) <= 0.05 ->
   velocity (handleDeviceMotion motion0 i) =
    damped_velocity zero2 (world_frame 0 0 (apply_deadzone (1 - 0)))
      (delta_time 0 (sample_now i))) /\
  (Rabs (1 - 0) <= 0.05 ->
   velocity (handleDeviceMotion motion0 i) =
    damped_velocity zero2 (world_frame 0 (apply_deadzone (0.01 - 0)) 0)
      (delta_time 0 (sample_now i))) /\
  (forall u, Rabs u <= 0.05 -> apply_deadzone u = 0) /\
  (forall u, 0.05 < Rabs u -> apply_deadzone u = u).
Proof.
  intros i acc.
  apply (deadzone_suppresses_small_components motion0 i acc 0); try reflexivity;
    try (unfold i; rewrite delta_time_motion0; lra).
  unfold next_count, i, acc. simpl.
  destruct (Rlt_dec (hypot 0.01 1) stationaryThreshold) as [H|H];
    unfold stationarySamplesRequired; [|lia].
  exfalso. unfold hypot, stationaryThreshold in H.
  assert (1 <= sqrt (0.01 * 0.01 + 1 * 1)).
  { rewrite <- sqrt_1 at 1. apply sqrt_le_1_alt. lra. }
  lra.
Defined.

(** ** C10: the world-frame rotation is an isometry *)

(** Claim C10.  For every heading and device-frame acceleration, the
    world-frame vector has the same Euclidean norm as [(ax, ay)]. *)
Theorem world_frame_preserves_norm (headingDeg ax ay : R) :
  vx (world_frame headingDeg ax ay) ^ 2 + vy (world_frame headingDeg ax ay) ^ 2
  = ax ^ 2 + ay ^ 2.
Proof.
  unfold world_frame. cbn [vx vy].
  set (t := headingDeg * (PI / 180)).
  pose proof (sin2_cos2 t) as E. unfold Rsqr in E.
  transitivity ((ax ^ 2 + ay ^ 2) * (sin t * sin t + cos t * cos t)); [ring|].
  rewrite E. ring.
Qed.

(** ** C6: reset *)

(** Claim C6.  [clearPath] zeroes velocity and position, re-seeds the path
    with the origin, clears the timestamp baseline, and keeps the bias and
    the stationary count. *)
Theorem clearPath_effect (st : MotionState) :
  velocity (clearPath st) = zero2 /\
  position (clearPath st) = zero2 /\
  path (clearPath st) = [zero2] /\
  lastTimestamp (clearPath st) = None /\
  accelBias (clearPath st) = accelBias st /\
  stationaryCount (clearPath st) = stationaryCount st.
Proof. repeat split. Qed.

(** ** C4: stationary detection *)

Lemma accepted_low_count (st : MotionState) (i : MotionInput) :
  accepted st i -> low_motion i ->
  stationaryCount (handleDeviceMotion st i) = S (stationaryCount st) /\
  lastTimestamp (handleDeviceMotion st i) = Some (sample_now i).
Proof.
  intros (acc & last & Ea & El & H1 & H2) (acc' & Ea' & Hlow).
  rewrite Ea in Ea'. injection Ea' as <-.
  assert (Hn : next_count (stationaryCount st) (or0 (acc_x acc)) (or0 (acc_y acc))
               = S (stationaryCount st)).
  { unfold next_count. destruct (Rlt_dec _ stationaryThreshold); [reflexivity|lra]. }
  destruct (Nat.ltb_spec
              (next_count (stationaryCount st) (or0 (acc_x acc)) (or0 (acc_y acc)))
              stationarySamplesRequired) as [Hc|Hc].
  - rewrite (motion_integrate_eq st i acc last Ea El H1 H2 Hc). cbn. auto.
  - rewrite (motion_stationary_eq st i acc last Ea El H1 H2 Hc). cbn. auto.
Qed.

Lemma still_run_count (st : MotionState) (ins : list MotionInput) :
  still_run st ins -> stationaryCount (run st ins) = (length ins + stationaryCount st)%nat.
Proof.
  revert st. induction ins as [|i rest IH]; intros st H; [reflexivity|].
  destruct H as (Ha & Hl & Hr). simpl.
  rewrite (IH _ Hr). rewrite (proj1 (accepted_low_count st i Ha Hl)). lia.
Qed.

Lemma still_run_app (st : MotionState) (l1 l2 : list MotionInput) :
  still_run st (l1 ++ l2) -> still_run st l1 /\ still_run (run st l1) l2.
Proof.
  revert st. induction l1 as [|i rest IH]; intros st H; simpl in *; [auto|].
  destruct H as (Ha & Hl & Hr). destruct (IH _ Hr). auto.
Qed.

Lemma skipn_nth_error {A} (l : list A) (k : nat) (a : A) :
  nth_error l k = Some a -> skipn k l = a :: skipn (S k) l.
Proof.
  revert k. induction l as [|b l IH]; intros [|k] H; simpl in *; try discriminate.
  - injection H as ->. reflexivity.
  - apply IH. exact H.
Qed.

(** Claim C4.  In a run of consecutive accepted motion samples whose raw 2D
    acceleration is below 0.12, every sample from the 6th onward (index
    [k >= 5] in the run) sets the velocity to exactly [{0, 0}], leaves the
    position and the path unchanged, and smooths the bias toward the raw
    reading: [bias' = 0.8 * bias + 0.2 * raw]. *)
Theorem stationary_from_sixth_sample (st : MotionState) (ins : list MotionInput)
    (k : nat) (i : MotionInput) :
  still_run st ins ->
  (5 <= k)%nat ->
  nth_error ins k = Some i ->
  exists acc,
    acceleration (mi_event i) = Some acc /\
    velocity (handleDeviceMotion (run st (firstn k ins)) i) = zero2 /\
    position (handleDeviceMotion (run st (firstn k ins)) i) = position (run st (firstn k ins)) /\
    path (handleDeviceMotion (run st (firstn k ins)) i) = path (run st (firstn k ins)) /\
    accelBias (handleDeviceMotion (run st (firstn k ins)) i) =
      {| vx := 0.8 * vx (accelBias (run st (firstn k ins))) + 0.2 * or0 (acc_x acc);
         vy := 0.8 * vy (accelBias (run st (firstn k ins))) + 0.2 * or0 (acc_y acc) |}.
Proof.
  intros Hrun Hk Hi.
  assert (Hlt : (k < length ins)%nat) by (apply nth_error_Some; rewrite Hi; discriminate).
  rewrite <- (firstn_skipn k ins) in Hrun.
  destruct (still_run_app _ _ _ Hrun) as [Hpre Hpost].
  rewrite (skipn_nth_error ins k i Hi) in Hpost.
  destruct Hpost as (Ha & Hl & _).
  pose proof (still_run_count _ _ Hpre) as Hcount.
  rewrite firstn_length_le in Hcount by lia.
  set (s := run st (firstn k ins)) in *.
  destruct Ha as (acc & last & Ea & El & H1 & H2).
  destruct Hl as (acc' & Ea' & Hlow). rewrite Ea in Ea'. injection Ea' as <-.
  assert (Hc : (stationarySamplesRequired <=
                next_count (stationaryCount s) (or0 (acc_x acc)) (or0 (acc_y acc)))%nat).
  { unfold next_count. destruct (Rlt_dec _ stationaryThreshold); [|lra].
    unfold stationarySamplesRequired. lia. }
  exists acc. rewrite (motion_stationary_eq s i acc last Ea El H1 H2 Hc).
  cbn [velocity position path accelBias]. split; [exact Ea|].
  split; [reflexivity|]. split; [reflexivity|]. split; [reflexivity|].
  unfold learn_bias. f_equal; ring.
Qed.

Lemma still_inputs_run (n : nat) (st : MotionState) (t : R) :
  lastTimestamp st = Some t -> still_run st (still_inputs (t + 100) n).
Proof.
  revert st t. induction n as [|n IH]; intros st t Et; simpl; [exact I|].
  assert (Ha : accepted st (motion_input no_accel (t + 100) 0)).
  { exists no_accel, t. unfold delta_time, sample_now. simpl. repeat split; auto; lra. }
  assert (Hl : low_motion (motion_input no_accel (t + 100) 0)).
  { exists no_accel. split; [reflexivity|]. simpl. rewrite hypot_0_0.
    unfold stationaryThreshold. lra. }
  split; [exact Ha|]. split; [exact Hl|].
  apply IH. apply (accepted_low_count _ _ Ha Hl).
Qed.

Lemma stationary_from_sixth_sample_witness :
  exists acc,
    acceleration (mi_event (motion_input no_accel (0 + 100 + 100 + 100 + 100 + 100 + 100) 0))
      = Some acc /\
    velocity (handleDeviceMotion (run motion0 (firstn 5 (still_inputs (0 + 100) 6)))
      (motion_input no_accel (0 + 100 + 100 + 100 + 100 + 100 + 100) 0)) = zero2 /\
    position (handleDeviceMotion (run motion0 (firstn 5 (still_inputs (0 + 100) 6)))
      (motion_input no_accel (0 + 100 + 100 + 100 + 100 + 100 + 100) 0))
      = position (run motion0 (firstn 5 (still_inputs (0 + 100) 6))) /\
    path (handleDeviceMotion (run motion0 (firstn 5 (still_inputs (0 + 100) 6)))
      (motion_input no_accel (0 + 100 + 100 + 100 + 100 + 100 + 100) 0))
      = path (run motion0 (firstn 5 (still_inputs (0 + 100) 6))) /\
    accelBias (handleDeviceMotion (run motion0 (firstn 5 (still_inputs (0 + 100) 6)))
      (motion_input no_accel (0 + 100 + 100 + 100 + 100 + 100 + 100) 0)) =
      {| vx := 0.8 * vx (accelBias (run motion0 (firstn 5 (still_inputs (0 + 100) 6))))
               + 0.2 * or0 (acc_x acc);
         vy := 0.8 * vy (accelBias (run motion0 (firstn 5 (still_inputs (0 + 100) 6))))
               + 0.2 * or0 (acc_y acc) |}.
Proof.
  apply (stationary_from_sixth_sample motion0 (still_inputs (0 + 100) 6) 5
           (motion_input no_accel (0 + 100 + 100 + 100 + 100 + 100 + 100) 0)).
  - apply still_inputs_run. reflexivity.
  - lia.
  - reflexivity.
Defined.

(** ** C2: missing acceleration components *)

(** Claim C2 (amended).  A missing, [null] or [NaN] acceleration component
    does not discard the sample: [acc.x || 0] reads it as 0, and the update
    is exactly the one of the same sample with that component equal to 0. *)
Theorem missing_component_read_as_zero (st : MotionState) (i : MotionInput) (v w : jsval) :
  (v = JUndef \/ v = JNull \/ v = JNaN) ->
  handleDeviceMotion st (with_acc i {| acc_x := v; acc_y := w |}) =
    handleDeviceMotion st (with_acc i {| acc_x := JNum 0; acc_y := w |}) /\
  handleDeviceMotion st (with_acc i {| acc_x := w; acc_y := v |}) =
    handleDeviceMotion st (with_acc i {| acc_x := w; acc_y := JNum 0 |}).
Proof. intros [ -> | [ -> | -> ] ]; split; reflexivity. Qed.

Lemma missing_component_read_as_zero_witness :
  handleDeviceMotion motion0
    (with_acc (motion_input no_accel 100 0) {| acc_x := JUndef; acc_y := JNum 1 |}) =
  handleDeviceMotion motion0
    (with_acc (motion_input no_accel 100 0) {| acc_x := JNum 0; acc_y := JNum 1 |}) /\
  handleDeviceMotion motion0
    (with_acc (motion_input no_accel 100 0) {| acc_x := JNum 1; acc_y := JUndef |}) =
  handleDeviceMotion motion0
    (with_acc (motion_input no_accel 100 0) {| acc_x := JNum 1; acc_y := JNum 0 |}).
Proof.
  apply (missing_component_read_as_zero motion0 (motion_input no_accel 100 0) JUndef (JNum 1)).
  left. reflexivity.
Defined.

(** Claim C2 fails as stated: a sample with no [x] component, [y = 1] and
    100 ms after the baseline is integrated, and a point is appended to the
    path. *)
Lemma missing_component_mutates_path :
  path (handleDeviceMotion motion0
          (motion_input {| acc_x := JUndef; acc_y := JNum 1 |} 100 0)) <> path motion0.
Proof.
  rewrite (motion_integrate_eq motion0 _ {| acc_x := JUndef; acc_y := JNum 1 |} 0);
    try reflexivity; try (rewrite delta_time_motion0; lra).
  - cbv zeta. cbn [path motion0]. intros H.
    apply (f_equal (@length Vec2)) in H. rewrite length_app in H. simpl in H. lia.
  - unfold next_count. destruct (Rlt_dec _ stationaryThreshold);
      unfold stationarySamplesRequired; simpl; lia.
Qed.

(** ** C7: projection of the DR path *)

(** Claim C7.  The projection is empty without a fix or with fewer than 2
    path points; otherwise each point [(x, y)] maps to
    [(lat + y / 111320, lon + x / (111320 * cos(lat * pi / 180)))]; with the
    anchor at [(0, 0)] the point [(0, 111320)] maps to [(1, 0)], within
    [1e-4] of [(1, 0)]. *)
Theorem projectPath_spec (gpsLocation : option GeoFix) (p : list Vec2) :
  ((gpsLocation = None \/ (length p < 2)%nat) -> projectPath gpsLocation p = []) /\
  (forall g, gpsLocation = Some g -> (2 <= length p)%nat ->
     projectPath gpsLocation p =
       map (fun q => (latitude g + vy q / 111320,
                      longitude g + vx q / (111320 * cos (latitude g * PI / 180)))) p) /\
  (exists lat lon,
     projectPath (Some (fix_at 0 0)) [zero2; {| vx := 0; vy := 111320 |}]
       = [(0, 0); (lat, lon)] /\
     Rabs (lat - 1) <= / 10000 /\ Rabs (lon - 0) <= / 10000).
Proof.
  split; [|split].
  - intros [->|Hl]; [reflexivity|].
    destruct gpsLocation as [g|]; [|reflexivity]. simpl.
    apply Nat.ltb_lt in Hl. rewrite Hl. reflexivity.
  - intros g -> Hl. simpl. apply Nat.ltb_ge in Hl. rewrite Hl. reflexivity.
  - exists 1, 0. split.
    + simpl. unfold metersPerLatDegree, zero2; cbn [vx vy].
      f_equal; [f_equal; unfold Rdiv; ring|].
      f_equal. f_equal; [field | unfold Rdiv; ring].
    + rewrite !Rminus_diag, Rabs_R0. lra.
Qed.

(** ** C8: ground-truth deduplication *)

Lemma flat_distance_one_meter : flat_distance (0, 0) (1 / 111320, 0) = 1.
Proof.
  unfold flat_distance. cbn [fst snd].
  replace (((0 - 1 / 111320) * 111320) ^ 2 +
           ((0 - 0) * 111320 * cos (0 * PI / 180)) ^ 2) with 1 by field.
  apply sqrt_1.
Qed.

(** Claim C8.  A fix is appended exactly when its flat-Earth distance
    (longitude scaled at the stored point's latitude) to every stored point
    is at least 0.5 m; a fix closer than 0.5 m to some stored point leaves
    the trace unchanged; two fixes 1 m apart are both stored. *)
Theorem ingestGroundTruth_spec (prev : list (R * R)) (g : GeoFix) :
  ((forall point, In point prev ->
      0.5 <= flat_distance point (latitude g, longitude g)) ->
   ingestGroundTruth prev (Some g) = prev ++ [(latitude g, longitude g)]) /\
  ((exists point, In point prev /\ flat_distance point (latitude g, longitude g) < 0.5) ->
   ingestGroundTruth prev (Some g) = prev) /\
  ingestGroundTruth (ingestGroundTruth [] (Some (fix_at 0 0))) (Some (fix_at (1 / 111320) 0))
    = [(0, 0); (1 / 111320, 0)] /\
  flat_distance (0, 0) (1 / 111320, 0) = 1.
Proof.
  split; [|split; [|split]].
  - intros Hfar. unfold ingestGroundTruth.
    destruct (existsb _ prev) eqn:E; [|reflexivity].
    apply existsb_exists in E. destruct E as (pt & Hin & Hc).
    unfold is_close in Hc. destruct (Rlt_dec _ 0.5) as [Hlt|]; [|discriminate].
    specialize (Hfar pt Hin). lra.
  - intros (pt & Hin & Hlt). unfold ingestGroundTruth.
    destruct (existsb _ prev) eqn:E; [reflexivity|].
    exfalso. assert (Ht : existsb (fun point => is_close point (latitude g, longitude g)) prev = true).
    { apply existsb_exists. exists pt. split; [exact Hin|].
      unfold is_close. destruct (Rlt_dec _ 0.5); [reflexivity|lra]. }
    rewrite E in Ht. discriminate.
  - simpl. unfold is_close. simpl (latitude _). simpl (longitude _).
    rewrite flat_distance_one_meter.
    destruct (Rlt_dec 1 0.5); [lra|]. reflexivity.
  - exact flat_distance_one_meter.
Qed.

(** ** Further properties of the motion integrator *)

(** One motion event either keeps the path or appends exactly the new
    position to it. *)
Lemma step_path_cases (st : MotionState) (i : MotionInput) :
  path (handleDeviceMotion st i) = path st /\
  position (handleDeviceMotion st i) = position st \/
  path (handleDeviceMotion st i) = path st ++ [position (handleDeviceMotion st i)].
Proof.
  unfold handleDeviceMotion.
  destruct (acceleration (mi_event i)) as [acc|]; [|left; auto].
  destruct (lastTimestamp st) as [last|]; [|left; auto].
  destruct (Rle_dec _ 0); [left; auto|].
  destruct (Rlt_dec _ 0.001); [left; auto|].
  destruct (Nat.leb _ _); [left; auto|right; reflexivity].
Qed.

(** Extra: the path is append-only.  After any stream of motion events the
    path is the old path followed by at most one new point per event. *)
Theorem run_path_extends (st : MotionState) (ins : list MotionInput) :
  exists suffix, path (run st ins) = path st ++ suffix /\ (length suffix <= length ins)%nat.
Proof.
  revert st. induction ins as [|i rest IH]; intros st; simpl.
  - exists []. rewrite app_nil_r. auto.
  - destruct (IH (handleDeviceMotion st i)) as (suf & E & L).
    destruct (step_path_cases st i) as [[P _]|P]; rewrite P in E.
    + exists suf. split; [exact E|lia].
    + exists (position (handleDeviceMotion st i) :: suf). split.
      * rewrite E, <- app_assoc. reflexivity.
      * simpl. lia.
Qed.

Lemma last_app_single (l : list Vec2) (a d : Vec2) : last (l ++ [a]) d = a.
Proof. apply last_last. Qed.

Lemma run_last_position (st : MotionState) (ins : list MotionInput) :
  last (path st) zero2 = position st ->
  last (path (run st ins)) zero2 = position (run st ins).
Proof.
  revert st. induction ins as [|i rest IH]; intros st H; simpl; [exact H|].
  apply IH. destruct (step_path_cases st i) as [[P Q]|P].
  - rewrite P, Q. exact H.
  - rewrite P. apply last_app_single.
Qed.

(** Extra: after a reset, the last point of the path is always the current
    position, whatever motion events follow. *)
Theorem reset_path_ends_at_position (st : MotionState) (ins : list MotionInput) :
  last (path (run (clearPath st) ins)) zero2 = position (run (clearPath st) ins).
Proof. apply run_last_position. reflexivity. Qed.

(** Norm helpers for the velocity bound. *)
Lemma hypot_nonneg (a b : R) : 0 <= hypot a b.
Proof. apply sqrt_pos. Qed.

Lemma hypot_sq (a b : R) : hypot a b * hypot a b = a * a + b * b.
Proof. unfold hypot. apply sqrt_sqrt. nra. Qed.

Lemma hypot_triangle (x1 y1 x2 y2 : R) :
  hypot (x1 + x2) (y1 + y2) <= hypot x1 y1 + hypot x2 y2.
Proof.
  pose proof (hypot_nonneg x1 y1) as N1. pose proof (hypot_nonneg x2 y2) as N2.
  pose proof (hypot_sq x1 y1) as S1. pose proof (hypot_sq x2 y2) as S2.
  assert (CS : x1 * x2 + y1 * y2 <= hypot x1 y1 * hypot x2 y2).
  { pose proof (Rmult_le_pos _ _ N1 N2) as N12.
    destruct (Rle_dec 0 (x1 * x2 + y1 * y2)) as [Hp|Hn]; [|lra].
    apply Rsqr_incr_0_var; [|apply Rmult_le_pos; assumption]. unfold Rsqr.
    replace (hypot x1 y1 * hypot x2 y2 * (hypot x1 y1 * hypot x2 y2))
      with ((hypot x1 y1 * hypot x1 y1) * (hypot x2 y2 * hypot x2 y2)) by ring.
    rewrite S1, S2.
    pose proof (Rle_0_sqr (x1 * y2 - x2 * y1)) as D. unfold Rsqr in D. nra. }
  apply Rsqr_incr_0_var; [|lra]. unfold Rsqr.
  rewrite hypot_sq.
  replace ((hypot x1 y1 + hypot x2 y2) * (hypot x1 y1 + hypot x2 y2))
    with (hypot x1 y1 * hypot x1 y1 + hypot x2 y2 * hypot x2 y2
          + 2 * (hypot x1 y1 * hypot x2 y2)) by ring.
  rewrite S1, S2. lra.
Qed.

Lemma hypot_scale (c a b : R) : 0 <= c -> hypot (a * c) (b * c) = c * hypot a b.
Proof.
  intros Hc. unfold hypot.
  replace (a * c * (a * c) + b * c * (b * c)) with ((c * c) * (a * a + b * b)) by ring.
  rewrite sqrt_mult_alt by nra. rewrite sqrt_square by exact Hc. reflexivity.
Qed.

Lemma hypot_mono (a b c d : R) :
  Rabs a <= Rabs c -> Rabs b <= Rabs d -> hypot a b <= hypot c d.
Proof.
  intros Ha Hb. unfold hypot. apply sqrt_le_1_alt.
  pose proof (Rsqr_le_abs_1 _ _ Ha). pose proof (Rsqr_le_abs_1 _ _ Hb).
  unfold Rsqr in *. lra.
Qed.

Lemma apply_deadzone_abs (u : R) : Rabs (apply_deadzone u) <= Rabs u.
Proof.
  unfold apply_deadzone. destruct (Rlt_dec deadzone (Rabs u)); [lra|].
  rewrite Rabs_R0. apply Rabs_pos.
Qed.

Lemma world_frame_hypot (h ax ay : R) :
  hypot (vx (world_frame h ax ay)) (vy (world_frame h ax ay)) = hypot ax ay.
Proof.
  unfold hypot. f_equal. unfold world_frame. cbn [vx vy].
  set (t := h * (PI / 180)).
  pose proof (sin2_cos2 t) as E. unfold Rsqr in E.
  transitivity ((ax * ax + ay * ay) * (sin t * sin t + cos t * cos t)); [ring|].
  rewrite E. ring.
Qed.

(** Extra: bounded drift.  On an accepted, integrated sample the new speed
    is at most [exp(-dt) * (|v| + |raw - bias| * dt)]: the deadzone never
    enlarges a component and the rotation keeps the norm. *)
Theorem integrated_speed_bound (st : MotionState) (i : MotionInput)
    (acc : Acceleration) (last : R) :
  acceleration (mi_event i) = Some acc ->
  lastTimestamp st = Some last ->
  0 < delta_time last (sample_now i) ->
  0.001 <= delta_time last (sample_now i) ->
  (next_count (stationaryCount st) (or0 (acc_x acc)) (or0 (acc_y acc))
     < stationarySamplesRequired)%nat ->
  hypot (vx (velocity (handleDeviceMotion st i))) (vy (velocity (handleDeviceMotion st i)))
  <= exp (- damping * delta_time last (sample_now i)) *
     (hypot (vx (velocity st)) (vy (velocity st)) +
      hypot (or0 (acc_x acc) - vx (accelBias st)) (or0 (acc_y acc) - vy (accelBias st))
        * delta_time last (sample_now i)).
Proof.
  intros Ea El H1 H2 Hc.
  rewrite (motion_integrate_eq st i acc last Ea El H1 H2 Hc). cbv zeta.
  cbn [velocity]. unfold damped_velocity. cbn [vx vy].
  set (dt := delta_time last (sample_now i)) in *.
  set (e := exp (- damping * dt)).
  set (ux := or0 (acc_x acc) - vx (accelBias st)).
  set (uy := or0 (acc_y acc) - vy (accelBias st)).
  set (w := world_frame (mi_heading i) (apply_deadzone ux) (apply_deadzone uy)).
  assert (He : 0 < e < 1) by (apply exp_neg_lt_1; exact H1).
  rewrite hypot_scale by lra.
  apply Rmult_le_compat_l; [lra|].
  eapply Rle_trans; [apply hypot_triangle|].
  apply Rplus_le_compat_l.
  rewrite hypot_scale by lra. rewrite Rmult_comm.
  apply Rmult_le_compat_r; [lra|].
  unfold w. rewrite world_frame_hypot.
  apply hypot_mono; apply apply_deadzone_abs.
Qed.

Lemma integrated_speed_bound_witness :
  hypot (vx (velocity (handleDeviceMotion motion0
           (motion_input {| acc_x := JNum 1; acc_y := JNum 0 |} 100 0))))
        (vy (velocity (handleDeviceMotion motion0
           (motion_input {| acc_x := JNum 1; acc_y := JNum 0 |} 100 0))))
  <= exp (- damping * delta_time 0
            (sample_now (motion_input {| acc_x := JNum 1; acc_y := JNum 0 |} 100 0))) *
     (hypot 0 0 + hypot (1 - 0) (0 - 0) * delta_time 0
            (sample_now (motion_input {| acc_x := JNum 1; acc_y := JNum 0 |} 100 0))).
Proof.
  apply (integrated_speed_bound motion0
           (motion_input {| acc_x := JNum 1; acc_y := JNum 0 |} 100 0)
           {| acc_x := JNum 1; acc_y := JNum 0 |} 0);
    try reflexivity; try (rewrite delta_time_motion0; lra).
  unfold next_count. destruct (Rlt_dec _ stationaryThreshold);
    unfold stationarySamplesRequired; simpl; lia.
Defined.

(** Extra: a sample whose raw 2D acceleration reaches the stationary
    threshold ends any stationary period: the count drops to 0, the bias is
    kept, and the sample is integrated, its new position appended to the
    path. *)
Theorem moving_sample_resets_count (st : MotionState) (i : MotionInput)
    (acc : Acceleration) (last : R) :
  acceleration (mi_event i) = Some acc ->
  lastTimestamp st = Some last ->
  0 < delta_time last (sample_now i) ->
  0.001 <= delta_time last (sample_now i) ->
  stationaryThreshold <= hypot (or0 (acc_x acc)) (or0 (acc_y acc)) ->
  stationaryCount (handleDeviceMotion st i) = 0%nat /\
  accelBias (handleDeviceMotion st i) = accelBias st /\
  path (handleDeviceMotion st i) = path st ++ [position (handleDeviceMotion st i)] /\
  lastTimestamp (handleDeviceMotion st i) = Some (sample_now i).
Proof.
  intros Ea El H1 H2 Hm.
  assert (Hn : next_count (stationaryCount st) (or0 (acc_x acc)) (or0 (acc_y acc)) = 0%nat).
  { unfold next_count. destruct (Rlt_dec _ stationaryThreshold); [lra|reflexivity]. }
  assert (Hc : (next_count (stationaryCount st) (or0 (acc_x acc)) (or0 (acc_y acc))
                < stationarySamplesRequired)%nat)
    by (rewrite Hn; unfold stationarySamplesRequired; lia).
  rewrite (motion_integrate_eq st i acc last Ea El H1 H2 Hc). cbv zeta. cbn.
  rewrite Hn. auto.
Qed.

Lemma moving_sample_resets_count_witness :
  stationaryCount (handleDeviceMotion motion0
    (motion_input {| acc_x := JNum 1; acc_y := JNum 0 |} 100 0)) = 0%nat /\
  accelBias (handleDeviceMotion motion0
    (motion_input {| acc_x := JNum 1; acc_y := JNum 0 |} 100 0)) = accelBias motion0 /\
  path (handleDeviceMotion motion0
    (motion_input {| acc_x := JNum 1; acc_y := JNum 0 |} 100 0)) =
    path motion0 ++ [position (handleDeviceMotion motion0
      (motion_input {| acc_x := JNum 1; acc_y := JNum 0 |} 100 0))] /\
  lastTimestamp (handleDeviceMotion motion0
    (motion_input {| acc_x := JNum 1; acc_y := JNum 0 |} 100 0)) =
    Some (sample_now (motion_input {| acc_x := JNum 1; acc_y := JNum 0 |} 100 0)).
Proof.
  apply (moving_sample_resets_count motion0
           (motion_input {| acc_x := JNum 1; acc_y := JNum 0 |} 100 0)
           {| acc_x := JNum 1; acc_y := JNum 0 |} 0);
    try reflexivity; try (rewrite delta_time_motion0; lra).
  simpl. unfold hypot, stationaryThreshold.
  replace (1 * 1 + 0 * 0) with 1 by ring. rewrite sqrt_1. lra.
Defined.

(** ** Session lifecycle *)

Lemma throws_not_granted (p : Permission) (m : string) : throws p = Some m -> granted p = false.
Proof. destruct p; simpl; congruence. Qed.

(** The outcomes of [startMonitoring]: listeners on exactly when both
    permissions are granted, and in every case a cleared baseline. *)
Lemma startMonitoring_cases (pm po : Permission) (s : Session) :
  ((granted pm && granted po)%bool = true ->
   listening (startMonitoring pm po s) = true /\
   isMonitoring (startMonitoring pm po s) = true /\
   error (startMonitoring pm po s) = None) /\
  ((granted pm && granted po)%bool = false ->
   listening (startMonitoring pm po s) = listening s /\
   isMonitoring (startMonitoring pm po s) = isMonitoring s /\
   error (startMonitoring pm po s) <> None) /\
  motion (startMonitoring pm po s) = set_baseline (motion s) None /\
  orientation (startMonitoring pm po s) = orientation s.
Proof.
  unfold startMonitoring.
  destruct (throws pm) as [m|] eqn:Tm.
  - pose proof (throws_not_granted pm m Tm) as G. rewrite G. simpl.
    repeat split; try discriminate; reflexivity.
  - destruct (throws po) as [m|] eqn:To.
    + pose proof (throws_not_granted po m To) as G. rewrite G, Bool.andb_false_r.
      repeat split; try discriminate; reflexivity.
    + destruct (granted pm && granted po)%bool; simpl;
        repeat split; try discriminate; reflexivity.
Qed.

(** Extra: a stop/start cycle keeps the learned bias, the stationary count,
    the velocity, the position and the path, and clears only the timestamp
    baseline; the first motion sample after the restart only records its
    timestamp. *)
Theorem restart_keeps_state (pm po : Permission) (s : Session) :
  (granted pm && granted po)%bool = true ->
  listening (startMonitoring pm po (stopMonitoring s)) = true /\
  motion (startMonitoring pm po (stopMonitoring s)) = set_baseline (motion s) None /\
  (forall ev clock acc, acceleration ev = Some acc ->
     motion (dispatch_motion (startMonitoring pm po (stopMonitoring s)) ev clock) =
       set_baseline (motion s)
         (Some (sample_now {| mi_event := ev; mi_clock := clock;
                              mi_heading := heading (orientation s) |}))).
Proof.
  intros G.
  destruct (startMonitoring_cases pm po (stopMonitoring s)) as (HT & _ & HM & HO).
  destruct (HT G) as (HL & _ & _).
  split; [exact HL|]. split; [rewrite HM; reflexivity|].
  intros ev clock acc Ea.
  unfold dispatch_motion. rewrite HL. cbn [motion].
  rewrite HM, HO. unfold handleDeviceMotion. cbn [mi_event]. rewrite Ea.
  reflexivity.
Qed.

Lemma restart_keeps_state_witness :
  listening (startMonitoring NoRequestApi (Answer "granted") (stopMonitoring session0)) = true /\
  motion (startMonitoring NoRequestApi (Answer "granted") (stopMonitoring session0))
    = set_baseline (motion session0) None /\
  (forall ev clock acc, acceleration ev = Some acc ->
     motion (dispatch_motion
               (startMonitoring NoRequestApi (Answer "granted") (stopMonitoring session0))
               ev clock) =
       set_baseline (motion session0)
         (Some (sample_now {| mi_event := ev; mi_clock := clock;
                              mi_heading := heading (orientation session0) |}))).
Proof. apply (restart_keeps_state NoRequestApi (Answer "granted") session0). reflexivity. Defined.

(** ** Further properties of the heading estimator *)

Lemma compensate_level_bounds (a b g : R) :
  Rabs b <= 5 -> Rabs g <= 5 -> compensate a b g = a.
Proof.
  intros Hb Hg. unfold compensate.
  destruct (Rlt_dec 5 (Rabs b)); [lra|]. destruct (Rlt_dec 5 (Rabs g)); [lra|reflexivity].
Qed.

(** Extra: the low-pass filter converges geometrically.  Repeating a level
    sample (pitch and roll within 5 degrees) with azimuth [a] [n] times
    brings the filter state from [f0] to [a + 0.8^n (f0 - a)]; from an empty
    filter the first sample sets it to [a] directly. *)
Theorem filter_converges (screen : option R) (hs : HeadingState) (ev : OrientationEvent)
    (a b g : R) (n : nat) :
  as_number (nullish (ev_alpha ev) (webkitCompassHeading ev)) = Some a ->
  as_number (ev_beta ev) = Some b ->
  as_number (ev_gamma ev) = Some g ->
  Rabs b <= 5 -> Rabs g <= 5 ->
  (forall f0, lastValue hs = Some f0 ->
     lastValue (run_orientation screen hs (repeat ev n)) = Some (a + 0.8 ^ n * (f0 - a))) /\
  (lastValue hs = None ->
     lastValue (run_orientation screen hs (repeat ev (S n))) = Some a).
Proof.
  intros Ea Eb Eg Hb Hg.
  assert (Step : forall hs', lastValue (handleDeviceOrientation screen hs' ev)
                             = Some (low_pass (lastValue hs') a)).
  { intros hs'. unfold handleDeviceOrientation. rewrite Ea, Eb, Eg. cbn [lastValue].
    rewrite compensate_level_bounds by assumption. reflexivity. }
  assert (Main : forall k hs' f0, lastValue hs' = Some f0 ->
            lastValue (run_orientation screen hs' (repeat ev k)) = Some (a + 0.8 ^ k * (f0 - a))).
  { induction k as [|k IH]; intros hs' f0 E; simpl.
    - rewrite E. f_equal. ring.
    - rewrite (IH _ (filterAlpha * a + (1 - filterAlpha) * f0)).
      + f_equal. unfold filterAlpha. replace 0.2 with (1 - 0.8) by lra. ring.
      + rewrite Step, E. reflexivity. }
  split.
  - intros f0 E. apply Main. exact E.
  - intros E. simpl. rewrite (Main n _ a).
    + f_equal. ring.
    + rewrite Step, E. reflexivity.
Qed.

Lemma filter_converges_witness :
  (forall f0, lastValue heading0 = Some f0 ->
     lastValue (run_orientation None heading0
       (repeat {| ev_alpha := JNum 90; ev_beta := JNum 0; ev_gamma := JNum 0;
                  webkitCompassHeading := JUndef |} 3)) = Some (90 + 0.8 ^ 3 * (f0 - 90))) /\
  (lastValue heading0 = None ->
     lastValue (run_orientation None heading0
       (repeat {| ev_alpha := JNum 90; ev_beta := JNum 0; ev_gamma := JNum 0;
                  webkitCompassHeading := JUndef |} 4)) = Some 90).
Proof.
  apply (filter_converges None heading0
           {| ev_alpha := JNum 90; ev_beta := JNum 0; ev_gamma := JNum 0;
              webkitCompassHeading := JUndef |} 90 0 0 3);
    try reflexivity; rewrite Rabs_R0; lra.
Defined.



Lemma filter_state_range_aux (screen : option R) (hs : HeadingState)
    (evs : list OrientationEvent) :
  (forall prev, lastValue hs = Some prev -> 0 <= prev < 360) ->
  Forall (fun ev => forall a, as_number (nullish (ev_alpha ev) (webkitCompassHeading ev)) = Some a ->
                              0 <= a < 360) evs ->
  forall f, lastValue (run_orientation screen hs evs) = Some f -> 0 <= f < 360.
Proof.
  revert hs. induction evs as [|ev rest IH]; intros hs Hhs Hall; simpl; [exact Hhs|].
  inversion Hall as [|ev' rest' Hev Hrest]; subst.
  apply IH; [|exact Hrest].
  intros prev. unfold handleDeviceOrientation.
  destruct (as_number (nullish _ _)) as [a|] eqn:Ea; [|apply Hhs].
  destruct (as_number (ev_beta ev)) as [b|]; [|apply Hhs].
  destruct (as_number (ev_gamma ev)) as [g|]; [|apply Hhs].
  cbn [lastValue]. intros E. injection E as <-.
  apply low_pass_range; [apply compensate_range; apply Hev; reflexivity|exact Hhs].
Qed.

(** Extra: over any stream of orientation events whose numeric azimuths are
    in the sensor range [[0, 360)], the filter state stays in [[0, 360)]. *)
Theorem filter_state_stays_in_range (screen : option R) (hs : HeadingState)
    (evs : list OrientationEvent) :
  (forall prev, lastValue hs = Some prev -> 0 <= prev < 360) ->
  Forall (fun ev => forall a, as_number (nullish (ev_alpha ev) (webkitCompassHeading ev)) = Some a ->
                              0 <= a < 360) evs ->
  match lastValue (run_orientation screen hs evs) with
  | Some f => 0 <= f < 360
  | None => True
  end.
Proof.
  intros Hhs Hall. pose proof (filter_state_range_aux screen hs evs Hhs Hall) as H.
  destruct (lastValue (run_orientation screen hs evs)) as [f|]; [apply H; reflexivity|exact I].
Qed.

Lemma filter_state_stays_in_range_witness :
  match lastValue (run_orientation None heading0
    [{| ev_alpha := JNum 350; ev_beta := JNum 0; ev_gamma := JNum 0; webkitCompassHeading := JUndef |};
     {| ev_alpha := JNum 10; ev_beta := JNum 30; ev_gamma := JNum 0; webkitCompassHeading := JUndef |}])
  with
  | Some f => 0 <= f < 360
  | None => True
  end.
Proof.
  apply filter_state_stays_in_range.
  - intros prev H. discriminate H.
  - constructor; [intros a H; injection H as <-; lra|].
    constructor; [intros a H; injection H as <-; lra|]. constructor.
Defined.

(** ** Further properties of the georeferencing effects *)

Lemma spaced_snoc (l : list (R * R)) (q : R * R) :
  spaced l -> Forall (fun p => 0.5 <= flat_distance p q) l -> spaced (l ++ [q]).
Proof.
  induction l as [|p l IH]; intros Hs Hf; simpl.
  - split; [constructor|exact I].
  - destruct Hs as [Hp Hl]. inversion Hf as [|p' l' Hpq Hrest]; subst.
    split; [|apply IH; assumption].
    apply Forall_app. split; [exact Hp|]. constructor; [exact Hpq|constructor].
Qed.

Lemma ingest_spaced (prev : list (R * R)) (f : option GeoFix) :
  spaced prev -> spaced (ingestGroundTruth prev f).
Proof.
  intros Hs. destruct f as [g|]; [|exact Hs]. unfold ingestGroundTruth.
  destruct (existsb _ prev) eqn:E; [exact Hs|].
  apply spaced_snoc; [exact Hs|].
  apply Forall_forall. intros p Hin.
  destruct (Rle_dec 0.5 (flat_distance p (latitude g, longitude g))) as [Hle|Hlt]; [exact Hle|].
  exfalso.
  assert (Ht : existsb (fun point => is_close point (latitude g, longitude g)) prev = true).
  { apply existsb_exists. exists p. split; [exact Hin|].
    unfold is_close. destruct (Rlt_dec _ 0.5); [reflexivity|lra]. }
  rewrite E in Ht. discriminate.
Qed.

(** Extra: the ground-truth trace built from any sequence of GPS updates
    (starting from the empty trace) has every point at least 0.5 m, by the
    flat-Earth metric scaled at the earlier point's latitude, from every
    later point. *)
Theorem ground_truth_trace_spaced (fixes : list (option GeoFix)) :
  spaced (ingest_all [] fixes).
Proof.
  assert (G : forall l prev, spaced prev -> spaced (ingest_all prev l)).
  { induction l as [|f rest IH]; intros prev Hs; simpl; [exact Hs|].
    apply IH. apply ingest_spaced. exact Hs. }
  apply G. exact I.
Qed.

(** Extra: the ground-truth trace only grows at its end, by at most one
    point per GPS update, and every added point is the coordinate pair of
    one of the fixes received. *)
Theorem ground_truth_trace_append_only (prev : list (R * R)) (fixes : list (option GeoFix)) :
  exists suffix,
    ingest_all prev fixes = prev ++ suffix /\
    (length suffix <= length fixes)%nat /\
    Forall (fun p => exists g, In (Some g) fixes /\ p = (latitude g, longitude g)) suffix.
Proof.
  revert prev. induction fixes as [|f rest IH]; intros prev; simpl.
  - exists []. rewrite app_nil_r. auto.
  - destruct (IH (ingestGroundTruth prev f)) as (suf & E & L & F).
    assert (W : forall l, Forall (fun p => exists g, In (Some g) rest /\ p = (latitude g, longitude g)) l ->
                Forall (fun p => exists g, (f = Some g \/ In (Some g) rest) /\
                                           p = (latitude g, longitude g)) l).
    { intros l Hl. eapply Forall_impl; [|exact Hl].
      intros p (g & Hin & Hp). exists g. auto. }
    destruct f as [g|].
    + assert (I : ingestGroundTruth prev (Some g) = prev \/
                  ingestGroundTruth prev (Some g) = prev ++ [(latitude g, longitude g)]).
      { unfold ingestGroundTruth. destruct (existsb _ prev); auto. }
      destruct I as [I|I]; rewrite I in E |- *.
      * exists suf. split; [exact E|]. split; [lia|]. apply W. exact F.
      * exists ((latitude g, longitude g) :: suf). split.
        { rewrite E, <- app_assoc. reflexivity. }
        split; [simpl; lia|].
        constructor; [exists g; auto|]. apply W. exact F.
    + exists suf. split; [exact E|]. split; [lia|]. apply W. exact F.
Qed.

(** Extra: after a reset, the projected DR trace, when there is one, starts
    exactly at the GPS anchor: the path's first point is the origin and the
    origin projects onto the fix. *)
Theorem reset_projection_starts_at_anchor (st : MotionState) (ins : list MotionInput)
    (g : GeoFix) :
  projectPath (Some g) (path (run (clearPath st) ins)) = [] \/
  exists rest,
    projectPath (Some g) (path (run (clearPath st) ins)) = (latitude g, longitude g) :: rest.
Proof.
  destruct (run_path_extends (clearPath st) ins) as (suf & E & _).
  rewrite E. cbn [path clearPath].
  unfold projectPath.
  destruct (Nat.ltb (length ([zero2] ++ suf)) 2); [left; reflexivity|right].
  eexists. simpl. f_equal. unfold zero2. cbn [vx vy].
  unfold Rdiv. rewrite !Rmult_0_l, !Rplus_0_r. reflexivity.
Qed.

(** Extra: during a stationary phase (from the fifth still sample on), every
    sample only refines the bias: position and path do not move, the velocity
    is held at zero, and the bias is the exponential average
    [raw + 0.8^n * (bias0 - raw)] of a constant raw acceleration. *)
Theorem stationary_run_learns_bias (st : MotionState) (ins : list MotionInput) (a b : R) :
  still_run st ins ->
  (5 <= stationaryCount st)%nat ->
  Forall (fun i => exists acc, acceleration (mi_event i) = Some acc /\
                               or0 (acc_x acc) = a /\ or0 (acc_y acc) = b) ins ->
  position (run st ins) = position st /\
  path (run st ins) = path st /\
  vx (accelBias (run st ins)) = a + 0.8 ^ length ins * (vx (accelBias st) - a) /\
  vy (accelBias (run st ins)) = b + 0.8 ^ length ins * (vy (accelBias st) - b) /\
  (ins <> [] -> velocity (run st ins) = zero2).
Proof.
  revert st. induction ins as [|i rest IH]; intros st Hrun Hc Hab.
  - simpl. repeat split; try ring. intros C; contradiction C; reflexivity.
  - destruct Hrun as (Ha & Hl & Hr).
    inversion Hab as [|? ? Hi Hrest]; subst.
    destruct Hi as (acc' & Ea' & Ex & Ey).
    destruct (accepted_low_count st i Ha Hl) as [Hcount _].
    destruct Ha as (acc & last & Ea & El & H1 & H2).
    rewrite Ea in Ea'. injection Ea' as <-.
    assert (Hn : (stationarySamplesRequired <=
                  next_count (stationaryCount st) (or0 (acc_x acc)) (or0 (acc_y acc)))%nat).
    { destruct Hl as (acc' & Ea' & Hlow). rewrite Ea in Ea'. injection Ea' as <-.
      unfold next_count. destruct (Rlt_dec _ stationaryThreshold); [|lra].
      unfold stationarySamplesRequired. lia. }
    pose proof (motion_stationary_eq st i acc last Ea El H1 H2 Hn) as Es.
    destruct (IH (handleDeviceMotion st i) Hr ltac:(lia) Hrest)
      as (Ep & Epa & Ebx & Eby & Ev).
    assert (Hv : velocity (run (handleDeviceMotion st i) rest) = zero2).
    { destruct rest as [|i' rest']; [rewrite Es; reflexivity|apply Ev; discriminate]. }
    cbn [run]. rewrite Ep, Epa, Ebx, Eby.
    split; [|split; [|split; [|split]]]; [| | | |intros _; exact Hv];
      rewrite Es; cbn [position path accelBias]; try reflexivity;
      unfold learn_bias; cbn [vx vy]; rewrite ?Ex, ?Ey;
      replace 0.2 with (1 - 0.8) by lra; simpl length; simpl pow; ring.
Qed.

Lemma stationary_run_learns_bias_witness :
  position (run motion5 (still_inputs (0 + 100) 3)) = position motion5 /\
  path (run motion5 (still_inputs (0 + 100) 3)) = path motion5 /\
  vx (accelBias (run motion5 (still_inputs (0 + 100) 3))) =
    0 + 0.8 ^ length (still_inputs (0 + 100) 3) * (vx (accelBias motion5) - 0) /\
  vy (accelBias (run motion5 (still_inputs (0 + 100) 3))) =
    0 + 0.8 ^ length (still_inputs (0 + 100) 3) * (vy (accelBias motion5) - 0) /\
  (still_inputs (0 + 100) 3 <> [] -> velocity (run motion5 (still_inputs (0 + 100) 3)) = zero2).
Proof.
  apply (stationary_run_learns_bias motion5 (still_inputs (0 + 100) 3) 0 0).
  - apply still_inputs_run. reflexivity.
  - simpl. lia.
  - simpl. repeat constructor; exists no_accel; repeat split; reflexivity.
Defined.
